(** * tools/vector.py: retrieval-augmented question answering over a
    Neo4j vector index.

    The module consists of one Python function, [generate_response], one
    Cypher query, [RETRIEVAL_QUERY], and three module-level objects
    ([neo4jvector], [retriever], [kg_qa]) built from them.  The Cypher
    query is embedded clause by clause as list transformations over a
    property graph; the Python part is embedded in an error monad.  The
    embedding function, the vector index, the database session and the
    language model are external collaborators and enter as section
    variables. *)

From Stdlib Require Import ZArith Floats.PrimFloat.
From stdpp Require Import base decidable option list strings gmap.

#[local] Set Warnings "-clear-no-such-hyp,-inexact-float".

Local Open Scope Z_scope.
Local Open Scope string_scope.

(** ** Property graph and the Cypher functions the query uses *)

Module Cypher.

(** Values a property or a [CASE] branch of the query can yield: [null],
    a string, an integer, and the empty map literal [{}] (the only map
    the query writes). *)
Inductive value : Type :=
| Null
| Str (s : string)
| Int (z : Z)
| EmptyMap.

#[global] Instance value_eq_dec : EqDecision value.
Proof. solve_decision. Defined.

Record node : Type := Node {
  node_id : Z;                       (* id(x) *)
  labels : list string;              (* labels(x) *)
  properties : gmap string value     (* x.key *)
}.

Record relationship : Type := Relationship {
  rel_id : Z;                        (* id(r) *)
  rel_type : string;                 (* type(r) *)
  startNode : node;
  endNode : node
}.

(** The stored graph, as the list of its relationships; every node the
    query can reach sits on one of them. *)
Definition graph : Type := list relationship.

(** [x.key]: a missing property reads as [null]. *)
Definition prop (x : node) (key : string) : value :=
  default Null (properties x !! key).

(** ['L' IN labels(x)], also the label predicate [x:L]. *)
Definition has_label (l : string) (x : node) : bool :=
  bool_decide (l ∈ labels x).

(** Node identity, as pattern matching joins on it. *)
Definition same_node (x y : node) : bool :=
  bool_decide (node_id x = node_id y).

Record path : Type := Path {
  nodes : list node;
  relationships : list relationship
}.

(** [none(x IN l WHERE p x)] *)
Definition none {A : Type} (p : A → bool) (l : list A) : bool :=
  forallb (λ x, negb (p x)) l.

(** [DISTINCT] over values with a decidable equality: the first
    occurrence of each value is kept. *)
Fixpoint distinct {A : Type} `{EqDecision A} (l : list A) : list A :=
  match l with
  | [] => []
  | x :: l' => x :: filter (λ y, y ≠ x) (distinct l')
  end.

(** [DISTINCT] and grouping over rows that hold floats, by a boolean
    equivalence. *)
Fixpoint distinct_by {A : Type} (eqv : A → A → bool) (l : list A) : list A :=
  match l with
  | [] => []
  | x :: l' => x :: filter (λ y, negb (eqv x y)) (distinct_by eqv l')
  end.

(** Equivalence of two scores under [DISTINCT] and grouping: equal
    numbers, or both not-a-number. *)
Definition score_equiv (a b : float) : bool :=
  PrimFloat.eqb a b || (PrimFloat.is_nan a && PrimFloat.is_nan b).

End Cypher.

Import Cypher.

(** ** RETRIEVAL_QUERY *)

(** A row of the index call the query is appended to:
    [CALL db.index.vector.queryNodes(...) YIELD node, score]. *)
Definition hit : Type := node * float.

(** The variables bound by the first [MATCH] and carried by both [WITH]
    clauses. *)
Record row : Type := Row {
  row_score : float;
  row_n : node;
  row_c : node;
  row_node : node
}.

(** [MATCH (node)-[:CHILD_OF]->(n:News)-[:PUBLISHED_BY]->(c:Company)] *)
Definition match_parent (g : graph) (hits : list hit) : list row :=
  h ← hits;
  r1 ← g;
  if bool_decide (rel_type r1 = "CHILD_OF")
     && same_node (startNode r1) h.1
     && has_label "News" (endNode r1)
  then
    r2 ← g;
    if bool_decide (rel_type r2 = "PUBLISHED_BY")
       && same_node (startNode r2) (endNode r1)
       && has_label "Company" (endNode r2)
    then [Row h.2 (endNode r1) (endNode r2) h.1]
    else []
  else [].

(** [MATCH path = (n)-[r*..1]-()]: the lower bound of a variable-length
    pattern defaults to 1, so a path is one relationship taken in either
    direction. *)
Definition one_hop (g : graph) (n : node) : list path :=
  r ← g;
  if same_node (startNode r) n then [Path [startNode r; endNode r] [r]]
  else if same_node (endNode r) n then [Path [endNode r; startNode r] [r]]
  else [].

(** [x:Resource|SplitText|Rns] *)
Definition helper_kind (x : node) : bool :=
  has_label "Resource" x || has_label "SplitText" x || has_label "Rns" x.

(** [where none(x in nodes(path) where x:Resource|SplitText|Rns)] *)
Definition match_path (g : graph) (n : node) : list path :=
  filter (λ p, none helper_kind (nodes p) = true) (one_hop g n).

(** The [CASE] expression, written once for [startNode(rels)] and once
    for [endNode(rels)] in the query. *)
Definition display_label (x : node) : value :=
  if has_label "Company" x then prop x "company_name"
  else if has_label "News" x then prop x "headline_name"
  else if has_label "NewsCategory" x then prop x "category"
  else if has_label "Date" x then prop x "date"
  else if has_label "Industry" x then prop x "industry"
  else if has_label "Sector" x then prop x "sector"
  else if has_label "SubSector" x then prop x "subsector"
  else if has_label "SuperSector" x then prop x "supersector"
  else if has_label "Tag" x then prop x "tag_name"
  else if has_label "Person" x then prop x "person_name"
  else if has_label "Organisation" x then prop x "organisation_name"
  else if has_label "Position" x then prop x "position_name"
  else EmptyMap.

(** The six-element list collected per relationship. *)
Record rel_tuple : Type := RelTuple {
  start_id : Z;
  start_label : value;
  relationship_id : Z;
  relationship_type : string;
  end_id : Z;
  end_label : value
}.

#[global] Instance rel_tuple_eq_dec : EqDecision rel_tuple.
Proof. solve_decision. Defined.

Definition tuple_of (rels : relationship) : rel_tuple :=
  {| start_id := node_id (startNode rels);
     start_label := display_label (startNode rels);
     relationship_id := rel_id rels;
     relationship_type := rel_type rels;
     end_id := node_id (endNode rels);
     end_label := display_label (endNode rels) |}.

(** [WITH score, n, c, node, path UNWIND relationships(path) AS rels] *)
Definition unwind_rels (g : graph) (rows : list row) : list (row * relationship) :=
  w ← rows;
  p ← match_path g (row_n w);
  rels ← relationships p;
  [(w, rels)].

(** The grouping key [score, n, c, node] of the aggregating [WITH]. *)
Definition same_group (a b : row) : bool :=
  score_equiv (row_score a) (row_score b)
  && same_node (row_n a) (row_n b)
  && same_node (row_c a) (row_c b)
  && same_node (row_node a) (row_node b).

(** [WITH score, n, c, node, collect(DISTINCT [...]) AS relslist] *)
Definition relslist_of (k : row) (rows : list (row * relationship)) : list rel_tuple :=
  distinct ((λ wr, tuple_of wr.2) <$> filter (λ wr, same_group k wr.1 = true) rows).

Definition collect_rels (rows : list (row * relationship)) : list (row * list rel_tuple) :=
  (λ k, (k, relslist_of k rows)) <$> distinct_by same_group (fst <$> rows).

(** The map projection [node {score: .., split_id: .., company: ..,
    url: .., graph: ..}]. *)
Record metadata_map : Type := Metadata {
  md_score : float;
  split_id : value;
  company : list value;
  url : list value;
  graph_list : list rel_tuple
}.

(** One returned row: [text], [score], [metadata]. *)
Record bundle : Type := Bundle {
  text : value;
  score : float;
  metadata : metadata_map
}.

(** [[(node)-[:CHILD_OF]->(n:News)-[:PUBLISHED_BY]->(Company) | Company.company_name]]:
    [node] and [n] are bound, [Company] is a fresh variable without a
    label. *)
Definition company_names (g : graph) (nd n : node) : list value :=
  r1 ← g;
  if bool_decide (rel_type r1 = "CHILD_OF")
     && same_node (startNode r1) nd
     && same_node (endNode r1) n
     && has_label "News" (endNode r1)
  then
    r2 ← g;
    if bool_decide (rel_type r2 = "PUBLISHED_BY")
       && same_node (startNode r2) (endNode r1)
    then [prop (endNode r2) "company_name"]
    else []
  else [].

(** [[(node)-[:CHILD_OF]->(n:News) | n.url]] *)
Definition urls (g : graph) (nd n : node) : list value :=
  r1 ← g;
  if bool_decide (rel_type r1 = "CHILD_OF")
     && same_node (startNode r1) nd
     && same_node (endNode r1) n
     && has_label "News" (endNode r1)
  then [prop (endNode r1) "url"]
  else [].

Definition bundle_of (g : graph) (k : row) (relslist : list rel_tuple) : bundle :=
  {| text := prop (row_n k) "body";
     score := row_score k;
     metadata :=
       {| md_score := row_score k;
          split_id := prop (row_node k) "split_id";
          company := company_names g (row_node k) (row_n k);
          url := urls g (row_node k) (row_n k);
          graph_list := relslist |} |}.

Definition metadata_equiv (a b : metadata_map) : bool :=
  score_equiv (md_score a) (md_score b)
  && bool_decide (split_id a = split_id b)
  && bool_decide (company a = company b)
  && bool_decide (url a = url b)
  && bool_decide (graph_list a = graph_list b).

Definition bundle_equiv (a b : bundle) : bool :=
  bool_decide (text a = text b)
  && score_equiv (score a) (score b)
  && metadata_equiv (metadata a) (metadata b).

(** [RETURN DISTINCT ... LIMIT 3] *)
Definition LIMIT : nat := 3.

Definition RETRIEVAL_QUERY (g : graph) (hits : list hit) : list bundle :=
  take LIMIT
    (distinct_by bundle_equiv
       ((λ kr, bundle_of g kr.1 kr.2)
          <$> collect_rels (unwind_rels g (match_parent g hits)))).

(** ** Python: exceptions and the objects of the module *)

(** A raised exception: its class and its message. *)
Record exn : Type := Exn {
  exn_class : string;
  exn_msg : string
}.

Inductive result (A : Type) : Type :=
| Ok (a : A)
| Raise (e : exn).

Arguments Ok {A} a.
Arguments Raise {A} e.

Definition bind {A B : Type} (m : result A) (f : A → result B) : result B :=
  match m with
  | Ok a => f a
  | Raise e => Raise e
  end.

#[global] Instance result_bind : MBind result := λ A B f m, bind m f.

(** A chain is called with a mapping and answers with a mapping. *)
Definition chain : Type := gmap string string → result (gmap string string).

Section Response.

(** The module-level chain object [generate_response] calls. *)
Variable kg_qa : chain.

(** [response = kg_qa({"question": prompt}); return response["answer"]]:
    a mapping without the key makes the subscript raise [KeyError]. *)
Definition generate_response (prompt : string) : result string :=
  response ← kg_qa {[ "question" := prompt ]};
  match response !! "answer" with
  | Some answer => Ok answer
  | None => Raise (Exn "KeyError" "answer")
  end.

End Response.

(** [search_kwargs={"k": 3, "score_threshold": 0.87}] *)
Definition k : nat := 3.
Definition score_threshold : float := 0.87%float.

(** [index_name="split_text_embedding"] *)
Definition index_name : string := "split_text_embedding".

Section Vector.

(** The collaborators of [llm.py] and the database behind
    [st.secrets["NEO4J_URI"]]: the embedding function, the vector index
    procedure [db.index.vector.queryNodes], the stored graph as the
    session reads it, and the language model behind the stuff chain.
    Each of them can raise. *)
Variable embedding : Type.
Variable embed_query : string → result embedding.
Variable queryNodes : string → nat → embedding → result (list hit).
Variable session : result graph.
Variable llm : list bundle → string → result string.

(** The names under which the chain reads its input and stores its
    output; they belong to the chain class, not to this module. *)
Variables input_key output_key : string.

(** [Neo4jVector.from_existing_index(embeddings, ...,
    index_name="split_text_embedding", retrieval_query=RETRIEVAL_QUERY)]:
    a search embeds the query, asks the index for the [top_k] nearest
    nodes and runs [RETRIEVAL_QUERY] over the yielded rows. *)
Definition neo4jvector (query : string) (top_k : nat) : result (list bundle) :=
  v ← embed_query query;
  hits ← queryNodes index_name top_k v;
  g ← session;
  Ok (RETRIEVAL_QUERY g hits).

(** [neo4jvector.as_retriever(search_type="similarity_score_threshold",
    search_kwargs={"k": 3, "score_threshold": 0.87})]: the documents of
    the search whose score is at least the threshold. *)
Definition retriever (query : string) : result (list bundle) :=
  docs ← neo4jvector query k;
  Ok (filter (λ b, PrimFloat.leb score_threshold (score b) = true) docs).

(** [RetrievalQA.from_chain_type(llm, chain_type="stuff",
    retriever=retriever)]: fetch the documents for the question, hand
    all of them with the question to the model, store the answer. *)
Definition kg_qa : chain := λ inputs,
  match inputs !! input_key with
  | None => Raise (Exn "ValueError" "Missing some input keys")
  | Some question =>
      docs ← retriever question;
      answer ← llm docs question;
      Ok (<[ output_key := answer ]> inputs)
  end.

(** The stage of a request at which an exception is raised. *)
Inductive raised_at (query : string) (e : exn) : Prop :=
| raised_embedding :
    embed_query query = Raise e → raised_at query e
| raised_index v :
    embed_query query = Ok v →
    queryNodes index_name k v = Raise e → raised_at query e
| raised_traversal v hits :
    embed_query query = Ok v →
    queryNodes index_name k v = Ok hits →
    session = Raise e → raised_at query e
| raised_model docs :
    retriever query = Ok docs →
    llm docs query = Raise e → raised_at query e.

End Vector.

(** ** What the clauses of the query match, as propositions *)

(** The parent-and-publisher chain of the first [MATCH]. *)
Definition parent_chain (g : graph) (nd n c : node) : Prop :=
  ∃ r1 r2,
    r1 ∈ g ∧ r2 ∈ g
    ∧ rel_type r1 = "CHILD_OF"
    ∧ node_id (startNode r1) = node_id nd
    ∧ endNode r1 = n ∧ "News" ∈ labels n
    ∧ rel_type r2 = "PUBLISHED_BY"
    ∧ node_id (startNode r2) = node_id n
    ∧ endNode r2 = c ∧ "Company" ∈ labels c.

(** A relationship the second [MATCH] keeps for the document [n]: it
    touches [n] and neither of its ends is of a helper kind. *)
Definition hop (g : graph) (n : node) (r : relationship) : Prop :=
  r ∈ g
  ∧ (node_id (startNode r) = node_id n ∨ node_id (endNode r) = node_id n)
  ∧ helper_kind (startNode r) = false
  ∧ helper_kind (endNode r) = false.

(** The [WHEN] branches of the [CASE], in the order the query lists them:
    the label tested and the property read. *)
Definition kind_attribute : list (string * string) :=
  [ ("Company", "company_name"); ("News", "headline_name");
    ("NewsCategory", "category"); ("Date", "date");
    ("Industry", "industry"); ("Sector", "sector");
    ("SubSector", "subsector"); ("SuperSector", "supersector");
    ("Tag", "tag_name"); ("Person", "person_name");
    ("Organisation", "organisation_name"); ("Position", "position_name") ].

(** A [CASE] over a list of branches: the first branch whose label the
    node carries decides; [{}] when none does. *)
Fixpoint case_label (branches : list (string * string)) (x : node) : value :=
  match branches with
  | [] => EmptyMap
  | (kind, attr) :: rest =>
      if has_label kind x then prop x attr else case_label rest x
  end.

(** What the [CASE] gives for a node [x]: the property of the first
    listed kind [x] carries, hence the property of its kind when it
    carries one listed kind only, and [{}] when it carries none. *)
Definition labelled (x : node) (v : value) : Prop :=
  (∀ i kind attr,
     kind_attribute !! i = Some (kind, attr) →
     kind ∈ labels x →
     (∀ j kind' attr', (j < i)%nat →
        kind_attribute !! j = Some (kind', attr') → kind' ∉ labels x) →
     v = prop x attr)
  ∧ (∀ kind attr,
       (kind, attr) ∈ kind_attribute →
       kind ∈ labels x →
       (∀ kind' attr', (kind', attr') ∈ kind_attribute →
          kind' ∈ labels x → kind' = kind) →
       v = prop x attr)
  ∧ ((∀ kind attr, (kind, attr) ∈ kind_attribute → kind ∉ labels x) →
     v = EmptyMap).

(** Whether the first [MATCH] finds a parent document and its publisher
    for the chunk of an index row. *)
Definition has_parent_chain (g : graph) (h : hit) : bool :=
  match match_parent g [h] with
  | [] => false
  | _ :: _ => true
  end.

(** The test of the second [MATCH] on one relationship, as the query
    evaluates it: the relationship touches [n] and [WHERE none(...)]
    holds of its two end nodes. *)
Definition admissible (n : node) (r : relationship) : bool :=
  (same_node (startNode r) n || same_node (endNode r) n)
  && negb (helper_kind (startNode r))
  && negb (helper_kind (endNode r)).

(** The nodes the stored relationships mention. *)
Definition graph_nodes (g : graph) : list node :=
  r ← g; [startNode r; endNode r].

#[global] Instance node_eq_dec : EqDecision node.
Proof. solve_decision. Defined.

(** In a stored graph an id names one node: two mentions of a node with
    the same id carry the same labels and properties. *)
Definition ids_name_nodes (g : graph) : Prop :=
  Forall (λ x, Forall (λ y, node_id x = node_id y → x = y) (graph_nodes g))
    (graph_nodes g).

(** No element of the list is equivalent to an earlier one. *)
Fixpoint earlier_distinct {A : Type} (eqv : A → A → bool) (l : list A) : Prop :=
  match l with
  | [] => True
  | x :: l' => Forall (λ y, eqv x y = false) l' ∧ earlier_distinct eqv l'
  end.

(** The names under which the chain class of line 135, langchain's
    [RetrievalQA], reads its input and stores its output.  The class is
    not part of this module; [generate_response] addresses the chain with
    ["question"] and ["answer"] instead. *)
Definition RetrievalQA_input_key : string := "query".
Definition RetrievalQA_output_key : string := "result".

(** ** A small stored graph, used to evaluate the definitions *)

Module Sample.

Definition chunk1 : node :=
  Node 1 ["SplitText"] {[ "split_id" := Str "rns-1-0" ]}.
Definition chunk2 : node :=
  Node 2 ["SplitText"] {[ "split_id" := Str "rns-2-0" ]}.
Definition news10 : node :=
  Node 10 ["News"]
    (<[ "body" := Str "Acme plc announces a merger." ]>
     (<[ "headline_name" := Str "Merger update" ]>
      {[ "url" := Str "https://example.org/rns/10" ]})).
Definition news11 : node :=
  Node 11 ["News"] {[ "body" := Str "Unpublished draft." ]}.
Definition company20 : node :=
  Node 20 ["Company"] {[ "company_name" := Str "Acme plc" ]}.
Definition tag30 : node :=
  Node 30 ["Tag"] {[ "tag_name" := Str "merger" ]}.
Definition resource40 : node :=
  Node 40 ["Resource"] ∅.
Definition topic50 : node :=
  Node 50 ["Topic"] {[ "topic_name" := Str "M&A" ]}.
Definition sector60 : node :=
  Node 60 ["Sector"] {[ "sector" := Str "Industrials" ]}.
(* a node carrying two of the labels the CASE tests *)
Definition issuer70 : node :=
  Node 70 ["News"; "Company"]
    (<[ "headline_name" := Str "Issuer notice" ]>
     {[ "company_name" := Str "Issuer Ltd" ]}).

Definition stored : graph :=
  [ Relationship 100 "CHILD_OF" chunk1 news10;
    Relationship 101 "PUBLISHED_BY" news10 company20;
    Relationship 102 "HAS_TAG" news10 tag30;
    Relationship 103 "SOURCE" news10 resource40;
    Relationship 104 "CHILD_OF" chunk2 news11;
    Relationship 105 "ABOUT" topic50 news10;
    Relationship 106 "IN_SECTOR" company20 sector60;
    Relationship 107 "MENTIONS" news10 issuer70 ].

Definition hits : list hit := [ (chunk2, 0.95%float); (chunk1, 0.91%float) ].
Definition low_hits : list hit := [ (chunk1, 0.8%float); (chunk2, 0.5%float) ].

(* the one row [RETRIEVAL_QUERY stored hits] returns *)
Definition expected : bundle :=
  {| text := Str "Acme plc announces a merger.";
     score := 0.91%float;
     metadata :=
       {| md_score := 0.91%float;
          split_id := Str "rns-1-0";
          company := [Str "Acme plc"];
          url := [Str "https://example.org/rns/10"];
          graph_list :=
            [ RelTuple 10 (Str "Merger update") 101 "PUBLISHED_BY" 20 (Str "Acme plc");
              RelTuple 10 (Str "Merger update") 102 "HAS_TAG" 30 (Str "merger");
              RelTuple 50 EmptyMap 105 "ABOUT" 10 (Str "Merger update");
              RelTuple 10 (Str "Merger update") 107 "MENTIONS" 70 (Str "Issuer Ltd") ] |} |}.

End Sample.

Arguments neo4jvector {embedding}.
Arguments retriever {embedding}.
Arguments kg_qa {embedding}.
Arguments raised_at {embedding}.

Module SampleRun.

(** Collaborators for evaluating a request on the sample graph. *)
Definition embed_query (query : string) : result nat := Ok (String.length query).
Definition queryNodes (index : string) (top_k : nat) (v : nat) : result (list hit) :=
  Ok Sample.hits.
Definition queryNodes_low (index : string) (top_k : nat) (v : nat) : result (list hit) :=
  Ok Sample.low_hits.
Definition session : result graph := Ok Sample.stored.
Definition llm (docs : list bundle) (question : string) : result string :=
  Ok (if bool_decide (docs = []) then "I do not know." else "Acme plc is merging.").

End SampleRun.

Module Sample2.

(** The sample graph with a second chunk of the same document. *)
Definition chunk3 : node :=
  Node 3 ["SplitText"] {[ "split_id" := Str "rns-1-1" ]}.
Definition stored : graph :=
  Relationship 108 "CHILD_OF" chunk3 Sample.news10 :: Sample.stored.
Definition hits : list hit :=
  [ (Sample.chunk1, 0.91%float); (chunk3, 0.89%float) ].

End Sample2.

(** ** Facts about [DISTINCT] *)

Section Distinct.

Context {A : Type}.

Lemma elem_of_distinct `{EqDecision A} (l : list A) (x : A) :
  x ∈ distinct l ↔ x ∈ l.
Proof.
  induction l as [|y l IH]; simpl; [done|].
  rewrite !elem_of_cons, list_elem_of_filter, IH.
  destruct (decide (x = y)); naive_solver.
Qed.

Lemma NoDup_distinct `{EqDecision A} (l : list A) : NoDup (distinct l).
Proof.
  induction l as [|y l IH]; simpl; constructor.
  - rewrite list_elem_of_filter. naive_solver.
  - by apply NoDup_filter.
Qed.

Lemma distinct_by_subseteq (eqv : A → A → bool) (l : list A) :
  distinct_by eqv l ⊆ l.
Proof.
  induction l as [|y l IH]; simpl; [done|].
  intros x. rewrite !elem_of_cons, list_elem_of_filter. naive_solver.
Qed.

Lemma distinct_by_nil (eqv : A → A → bool) (l : list A) :
  distinct_by eqv l = [] → l = [].
Proof. by destruct l. Qed.

End Distinct.

(** A list without repetition holds different values at different
    positions. *)
Lemma NoDup_positions {A : Type} (l : list A) (i j : nat) (x y : A) :
  NoDup l → i ≠ j → l !! i = Some x → l !! j = Some y → x ≠ y.
Proof.
  intros Hnd Hij Hi Hj ->. apply Hij. by eapply NoDup_lookup.
Qed.

Lemma filter_none {A : Type} (P : A → Prop) `{∀ x, Decision (P x)} (l : list A) :
  (∀ x, x ∈ l → ¬ P x) → filter P l = [].
Proof.
  induction l as [|y l IH]; intros Hnone; [done|].
  rewrite filter_cons, decide_False.
  - apply IH. intros x Hx. apply Hnone. by right.
  - apply Hnone. by left.
Qed.

Lemma score_equiv_refl (a : float) : score_equiv a a = true.
Proof.
  unfold score_equiv, PrimFloat.is_nan. by destruct (PrimFloat.eqb a a).
Qed.

Lemma same_node_refl (x : node) : same_node x x = true.
Proof. unfold same_node. by apply bool_decide_eq_true. Qed.

Lemma same_group_refl (w : row) : same_group w w = true.
Proof.
  unfold same_group. by rewrite score_equiv_refl, !same_node_refl.
Qed.

(** ** What the clauses of the query match *)

(** Turn the boolean tests of a matched pattern into propositions. *)
Ltac match_tests :=
  repeat match goal with
    | H : _ && _ = true |- _ => apply andb_true_iff in H as [? ?]
    | H : bool_decide _ = true |- _ => apply bool_decide_eq_true in H
    | H : has_label _ _ = true |- _ => apply bool_decide_eq_true in H
    | H : same_node _ _ = true |- _ => apply bool_decide_eq_true in H
    end.

Lemma elem_of_match_parent (g : graph) (hits : list hit) (w : row) :
  w ∈ match_parent g hits ↔
  ∃ nd s n c, (nd, s) ∈ hits ∧ parent_chain g nd n c ∧ w = Row s n c nd.
Proof.
  unfold match_parent, parent_chain. rewrite list_elem_of_bind. split.
  - intros ([nd s] & Hw & Hh). apply list_elem_of_bind in Hw as (r1 & Hw & Hr1).
    destruct (_ && _) eqn:E1 in Hw; [|by apply elem_of_nil in Hw].
    apply list_elem_of_bind in Hw as (r2 & Hw & Hr2).
    destruct (_ && _) eqn:E2 in Hw; [|by apply elem_of_nil in Hw].
    apply list_elem_of_singleton in Hw as ->.
    match_tests. simpl in *.
    exists nd, s, (endNode r1), (endNode r2).
    split; [done|]. split; [|done]. by exists r1, r2.
  - intros (nd & s & n & c & Hh & (r1 & r2 & Hr1 & Hr2 & T1 & S1 & <- & L1
                                   & T2 & S2 & <- & L2) & ->).
    exists (nd, s). split; [|done].
    apply list_elem_of_bind. exists r1. split; [|done].
    unfold same_node, has_label. simpl.
    rewrite !bool_decide_eq_true_2 by done. simpl.
    apply list_elem_of_bind. exists r2. split; [|done].
    rewrite !bool_decide_eq_true_2 by done. simpl. by apply list_elem_of_singleton.
Qed.

Lemma elem_of_one_hop (g : graph) (n : node) (p : path) :
  p ∈ one_hop g n ↔
  ∃ r, r ∈ g
    ∧ (same_node (startNode r) n = true ∧ p = Path [startNode r; endNode r] [r]
       ∨ same_node (startNode r) n = false ∧ same_node (endNode r) n = true
         ∧ p = Path [endNode r; startNode r] [r]).
Proof.
  unfold one_hop. rewrite list_elem_of_bind. split.
  - intros (r & Hp & Hr). exists r. split; [done|].
    destruct (same_node (startNode r) n); [|destruct (same_node (endNode r) n)].
    + apply list_elem_of_singleton in Hp. by left.
    + apply list_elem_of_singleton in Hp. by right.
    + by apply elem_of_nil in Hp.
  - intros (r & Hr & [[E ->]|(E1 & E2 & ->)]); exists r; (split; [|done]).
    + rewrite E. by apply list_elem_of_singleton.
    + rewrite E1, E2. by apply list_elem_of_singleton.
Qed.

Lemma none_helper_pair (a b : node) :
  none helper_kind [a; b] = true ↔ helper_kind a = false ∧ helper_kind b = false.
Proof.
  unfold none. simpl. rewrite andb_true_r, andb_true_iff, !negb_true_iff. done.
Qed.

Lemma elem_of_unwind_rels (g : graph) (rows : list row) (w : row) (r : relationship) :
  (w, r) ∈ unwind_rels g rows ↔ w ∈ rows ∧ hop g (row_n w) r.
Proof.
  unfold unwind_rels, match_path, hop, same_node. split.
  - intros Hin. apply list_elem_of_bind in Hin as (w' & Hin & Hw).
    apply list_elem_of_bind in Hin as (p & Hin & Hp).
    apply list_elem_of_bind in Hin as (r' & Hin & Hr).
    apply list_elem_of_singleton in Hin. injection Hin as <- <-.
    split; [done|].
    apply list_elem_of_filter in Hp as [Hnone Hp].
    apply elem_of_one_hop in Hp as (r0 & Hr0 & [[E ->]|(E1 & E2 & ->)]);
      simpl in Hr; apply list_elem_of_singleton in Hr as ->;
      apply none_helper_pair in Hnone as [Ha Hb];
      unfold same_node in *.
    + apply bool_decide_eq_true in E. auto.
    + apply bool_decide_eq_true in E2. auto.
  - intros (Hw & Hr & Hid & Hs & He).
    apply list_elem_of_bind. exists w. split; [|done].
    destruct (decide (node_id (startNode r) = node_id (row_n w))) as [E|E].
    + apply list_elem_of_bind. exists (Path [startNode r; endNode r] [r]). split.
      * apply list_elem_of_bind. exists r.
        split; by apply list_elem_of_singleton.
      * apply list_elem_of_filter. split; [by apply none_helper_pair|].
        apply elem_of_one_hop. exists r. split; [done|]. left.
        split; [by apply bool_decide_eq_true|done].
    + destruct Hid as [?|E']; [done|].
      apply list_elem_of_bind. exists (Path [endNode r; startNode r] [r]). split.
      * apply list_elem_of_bind. exists r.
        split; by apply list_elem_of_singleton.
      * apply list_elem_of_filter. split; [by apply none_helper_pair|].
        apply elem_of_one_hop. exists r. split; [done|]. right.
        unfold same_node.
        split; [by apply bool_decide_eq_false|].
        split; [by apply bool_decide_eq_true|done].
Qed.

(** The second [MATCH] sees the document only through its identity. *)
Lemma hop_same_node (g : graph) (n n' : node) (r : relationship) :
  same_node n n' = true → hop g n r → hop g n' r.
Proof.
  unfold same_node, hop. rewrite bool_decide_eq_true. intros ->. done.
Qed.

Lemma elem_of_relslist_of (g : graph) (rows : list row) (key : row) (t : rel_tuple) :
  key ∈ rows →
  t ∈ relslist_of key (unwind_rels g rows) ↔
  ∃ r, hop g (row_n key) r ∧ t = tuple_of r.
Proof.
  intros Hkey. unfold relslist_of.
  rewrite elem_of_distinct, list_elem_of_fmap. split.
  - intros ([w r] & -> & Hin). apply list_elem_of_filter in Hin as [Hg Hin].
    apply elem_of_unwind_rels in Hin as [_ Hhop]. exists r. split; [|done].
    simpl in Hg. unfold same_group in Hg. rewrite !andb_true_iff in Hg.
    destruct Hg as [[[_ Hn] _] _].
    apply (hop_same_node g (row_n w)); [|done].
    unfold same_node in *. rewrite bool_decide_eq_true in Hn |- *. done.
  - intros (r & Hhop & ->). exists (key, r). split; [done|].
    apply list_elem_of_filter. split; [apply same_group_refl|].
    by apply elem_of_unwind_rels.
Qed.

(** Every returned row is the projection of one group of the aggregating
    [WITH]. *)
Lemma RETRIEVAL_QUERY_inv (g : graph) (hits : list hit) (b : bundle) :
  b ∈ RETRIEVAL_QUERY g hits →
  ∃ key,
    key ∈ match_parent g hits
    ∧ (∃ r, hop g (row_n key) r)
    ∧ b = bundle_of g key (relslist_of key (unwind_rels g (match_parent g hits))).
Proof.
  unfold RETRIEVAL_QUERY, collect_rels. intros Hb.
  apply subseteq_take, distinct_by_subseteq in Hb.
  apply list_elem_of_fmap in Hb as ([key rl] & -> & Hb).
  apply list_elem_of_fmap in Hb as (key' & [= <- ->] & Hb).
  apply distinct_by_subseteq, list_elem_of_fmap in Hb as ([w r] & -> & Hb).
  apply elem_of_unwind_rels in Hb as [Hw Hhop].
  exists w. split; [done|]. split; [by exists r|done].
Qed.

Example RETRIEVAL_QUERY_sample :
  RETRIEVAL_QUERY Sample.stored Sample.hits = [Sample.expected].
Proof. vm_compute. reflexivity. Qed.

Lemma expected_in_sample : Sample.expected ∈ RETRIEVAL_QUERY Sample.stored Sample.hits.
Proof. rewrite RETRIEVAL_QUERY_sample. apply list_elem_of_singleton. reflexivity. Qed.

(** Each tuple of a returned relationship list is the tuple of a
    relationship the second [MATCH] kept for the row's document. *)
Lemma graph_list_inv (g : graph) (hits : list hit) (b : bundle) :
  b ∈ RETRIEVAL_QUERY g hits →
  ∃ nd s n c,
    (nd, s) ∈ hits ∧ parent_chain g nd n c
    ∧ b = bundle_of g (Row s n c nd) (graph_list (metadata b))
    ∧ NoDup (graph_list (metadata b))
    ∧ (∃ r, hop g n r)
    ∧ ∀ t, t ∈ graph_list (metadata b) ↔ ∃ r, hop g n r ∧ t = tuple_of r.
Proof.
  intros Hb. apply RETRIEVAL_QUERY_inv in Hb as (key & Hkey & Hhop & ->).
  pose proof Hkey as Hkey'.
  apply elem_of_match_parent in Hkey' as (nd & s & n & c & Hh & Hchain & ->).
  exists nd, s, n, c. simpl. split_and!; try done.
  - apply NoDup_distinct.
  - intros t. by apply (elem_of_relslist_of g (match_parent g hits)).
Qed.

(** ** The display label *)

Lemma display_label_case (x : node) :
  display_label x = case_label kind_attribute x.
Proof. reflexivity. Qed.

Lemma case_label_first (branches : list (string * string)) (x : node)
    (i : nat) (kind attr : string) :
  branches !! i = Some (kind, attr) →
  kind ∈ labels x →
  (∀ j kind' attr', (j < i)%nat → branches !! j = Some (kind', attr') →
                    kind' ∉ labels x) →
  case_label branches x = prop x attr.
Proof.
  revert i. induction branches as [|[k0 a0] rest IH]; intros i Hi Hk Hbefore.
  - by rewrite lookup_nil in Hi.
  - simpl. unfold has_label. destruct i as [|i]; simpl in Hi.
    + injection Hi as -> ->. by rewrite bool_decide_eq_true_2.
    + rewrite bool_decide_eq_false_2.
      * apply (IH i); [done..|]. intros j k' a' Hj Hl.
        apply (Hbefore (S j) k' a'); [lia|done].
      * apply (Hbefore 0%nat k0 a0); [lia|done].
Qed.

Lemma case_label_none (branches : list (string * string)) (x : node) :
  (∀ kind attr, (kind, attr) ∈ branches → kind ∉ labels x) →
  case_label branches x = EmptyMap.
Proof.
  induction branches as [|[k0 a0] rest IH]; intros Hnone; simpl; [done|].
  unfold has_label. rewrite bool_decide_eq_false_2.
  - apply IH. intros kind attr Hin. apply (Hnone kind attr). by right.
  - apply (Hnone k0 a0). by left.
Qed.

Lemma display_label_labelled (x : node) : labelled x (display_label x).
Proof.
  rewrite display_label_case. split_and!.
  - intros i kind attr Hi Hk Hbefore. by apply (case_label_first _ _ i kind).
  - intros kind attr Hin Hk Honly.
    apply list_elem_of_lookup in Hin as [i Hi].
    apply (case_label_first _ _ i kind); [done..|].
    intros j kind' attr' Hj Hl Hk'.
    assert (kind' = kind) as ->.
    { apply (Honly kind' attr'); [|done]. apply list_elem_of_lookup. by exists j. }
    assert (NoDup kind_attribute.*1) as Hnd.
    { apply (bool_decide_unpack (NoDup kind_attribute.*1)). vm_compute. exact I. }
    assert (j = i); [|lia].
    apply (NoDup_lookup _ _ _ kind Hnd); by rewrite list_lookup_fmap, ?Hl, ?Hi.
  - apply case_label_none.
Qed.

(** ** The relationship list of a returned row *)

(** C3: the relationship list of every returned row has no repeated
    entry: entries at two different positions differ in at least one of
    start-node id, start-node label, relationship id, relationship type,
    end-node id and end-node label. *)
Theorem relslist_no_duplicates (g : graph) (hits : list hit) (b : bundle) :
  b ∈ RETRIEVAL_QUERY g hits →
  NoDup (graph_list (metadata b))
  ∧ ∀ i j t1 t2,
      i ≠ j →
      graph_list (metadata b) !! i = Some t1 →
      graph_list (metadata b) !! j = Some t2 →
      start_id t1 ≠ start_id t2 ∨ start_label t1 ≠ start_label t2
      ∨ relationship_id t1 ≠ relationship_id t2
      ∨ relationship_type t1 ≠ relationship_type t2
      ∨ end_id t1 ≠ end_id t2 ∨ end_label t1 ≠ end_label t2.
Proof.
  intros Hb. apply graph_list_inv in Hb as (nd & s & n & c & _ & _ & _ & Hnd & _).
  split; [done|]. intros i j t1 t2 Hij H1 H2.
  pose proof (NoDup_positions _ i j t1 t2 Hnd Hij H1 H2) as Hne.
  destruct t1 as [a1 b1 c1 d1 e1 f1], t2 as [a2 b2 c2 d2 e2 f2]. simpl.
  destruct (decide (a1 = a2)) as [->|]; [|by left]. right.
  destruct (decide (b1 = b2)) as [->|]; [|by left]. right.
  destruct (decide (c1 = c2)) as [->|]; [|by left]. right.
  destruct (decide (d1 = d2)) as [->|]; [|by left]. right.
  destruct (decide (e1 = e2)) as [->|]; [|by left]. right.
  intros ->. by apply Hne.
Qed.

Lemma relslist_no_duplicates_witness :
  NoDup (graph_list (metadata Sample.expected))
  ∧ ∀ i j t1 t2,
      i ≠ j →
      graph_list (metadata Sample.expected) !! i = Some t1 →
      graph_list (metadata Sample.expected) !! j = Some t2 →
      start_id t1 ≠ start_id t2 ∨ start_label t1 ≠ start_label t2
      ∨ relationship_id t1 ≠ relationship_id t2
      ∨ relationship_type t1 ≠ relationship_type t2
      ∨ end_id t1 ≠ end_id t2 ∨ end_label t1 ≠ end_label t2.
Proof.
  apply (relslist_no_duplicates Sample.stored Sample.hits Sample.expected).
  apply expected_in_sample.
Defined.

(** A node tagged [News] and [Company] sits at the end of a collected
    relationship; its label in the tuple is its [company_name], not its
    [headline_name]. *)
Lemma display_label_two_kinds :
  Sample.expected ∈ RETRIEVAL_QUERY Sample.stored Sample.hits
  ∧ tuple_of (Relationship 107 "MENTIONS" Sample.news10 Sample.issuer70)
    ∈ graph_list (metadata Sample.expected)
  ∧ "News" ∈ labels Sample.issuer70
  ∧ ("News", "headline_name") ∈ kind_attribute
  ∧ prop Sample.issuer70 "headline_name" = Str "Issuer notice"
  ∧ end_label (tuple_of (Relationship 107 "MENTIONS" Sample.news10 Sample.issuer70))
    = Str "Issuer Ltd"
  ∧ end_label (tuple_of (Relationship 107 "MENTIONS" Sample.news10 Sample.issuer70))
    ≠ prop Sample.issuer70 "headline_name".
Proof.
  split_and!; try (vm_compute; done); try apply expected_in_sample.
  - apply (bool_decide_unpack _). vm_compute. exact I.
  - apply (bool_decide_unpack _). vm_compute. exact I.
  - apply (bool_decide_unpack _). vm_compute. exact I.
Qed.

(** C4, amended: both labels of every collected tuple are given by the
    [CASE] on the relationship's end nodes: the property of the first
    listed kind the node carries (so the property of its kind when it
    carries exactly one listed kind), and [{}] when it carries none. *)
Theorem tuple_labels_by_first_kind (g : graph) (hits : list hit) (b : bundle)
    (t : rel_tuple) :
  b ∈ RETRIEVAL_QUERY g hits →
  t ∈ graph_list (metadata b) →
  ∃ r, r ∈ g ∧ t = tuple_of r
       ∧ labelled (startNode r) (start_label t)
       ∧ labelled (endNode r) (end_label t).
Proof.
  intros Hb Ht.
  apply graph_list_inv in Hb as (nd & s & n & c & _ & _ & _ & _ & _ & Hall).
  apply Hall in Ht as (r & (Hr & _) & ->).
  exists r. split_and!; [done..| |]; apply display_label_labelled.
Qed.

Lemma tuple_labels_by_first_kind_witness :
  ∃ r, r ∈ Sample.stored
       ∧ RelTuple 10 (Str "Merger update") 107 "MENTIONS" 70 (Str "Issuer Ltd")
         = tuple_of r
       ∧ labelled (startNode r) (Str "Merger update")
       ∧ labelled (endNode r) (Str "Issuer Ltd").
Proof.
  apply (tuple_labels_by_first_kind Sample.stored Sample.hits Sample.expected
           (RelTuple 10 (Str "Merger update") 107 "MENTIONS" 70 (Str "Issuer Ltd"))).
  - apply expected_in_sample.
  - apply (bool_decide_unpack _). vm_compute. exact I.
Defined.

(** C5: every relationship collected for a returned row touches the
    row's parent document [n] itself, that is, it lies one hop from [n];
    nothing two hops away is collected. *)
Theorem relationships_one_hop_from_parent (g : graph) (hits : list hit) (b : bundle) :
  b ∈ RETRIEVAL_QUERY g hits →
  ∃ nd s n c,
    (nd, s) ∈ hits ∧ parent_chain g nd n c
    ∧ text b = prop n "body"
    ∧ ∀ t, t ∈ graph_list (metadata b) →
        ∃ r p, r ∈ g ∧ t = tuple_of r
          ∧ p ∈ one_hop g n ∧ relationships p = [r]
          ∧ (node_id (startNode r) = node_id n ∨ node_id (endNode r) = node_id n).
Proof.
  intros Hb.
  apply graph_list_inv in Hb as (nd & s & n & c & Hh & Hc & -> & _ & _ & Hall).
  exists nd, s, n, c. split_and!; [done..|].
  intros t Ht. apply Hall in Ht as (r & (Hr & Hid & _ & _) & ->).
  destruct (decide (node_id (startNode r) = node_id n)) as [E|E].
  - exists r, (Path [startNode r; endNode r] [r]). split_and!; try done.
    apply elem_of_one_hop. exists r. split; [done|]. left.
    split; [by apply bool_decide_eq_true|done].
  - destruct Hid as [?|E']; [done|].
    exists r, (Path [endNode r; startNode r] [r]). split_and!; try done; [|by right].
    apply elem_of_one_hop. exists r. split; [done|]. right. unfold same_node.
    split_and!; [by apply bool_decide_eq_false|by apply bool_decide_eq_true|done].
Qed.

Lemma relationships_one_hop_from_parent_witness :
  ∃ nd s n c,
    (nd, s) ∈ Sample.hits ∧ parent_chain Sample.stored nd n c
    ∧ text Sample.expected = prop n "body"
    ∧ ∀ t, t ∈ graph_list (metadata Sample.expected) →
        ∃ r p, r ∈ Sample.stored ∧ t = tuple_of r
          ∧ p ∈ one_hop Sample.stored n ∧ relationships p = [r]
          ∧ (node_id (startNode r) = node_id n ∨ node_id (endNode r) = node_id n).
Proof.
  apply (relationships_one_hop_from_parent Sample.stored Sample.hits Sample.expected).
  apply expected_in_sample.
Defined.

(** A stored relationship two hops from the document is not collected. *)
Example two_hops_not_collected :
  Relationship 106 "IN_SECTOR" Sample.company20 Sample.sector60 ∈ Sample.stored
  ∧ tuple_of (Relationship 106 "IN_SECTOR" Sample.company20 Sample.sector60)
    ∉ graph_list (metadata Sample.expected).
Proof.
  split.
  - unfold Sample.stored. do 6 apply list_elem_of_further. apply list_elem_of_here.
  - apply (bool_decide_unpack _). vm_compute. exact I.
Qed.

(** C6: no end node of a collected relationship carries one of the labels
    [Resource], [SplitText], [Rns]. *)
Theorem no_helper_endpoints (g : graph) (hits : list hit) (b : bundle) (t : rel_tuple) :
  b ∈ RETRIEVAL_QUERY g hits →
  t ∈ graph_list (metadata b) →
  ∃ r, r ∈ g ∧ t = tuple_of r
    ∧ ∀ x, x = startNode r ∨ x = endNode r →
        ("Resource" ∉ labels x) ∧ ("SplitText" ∉ labels x) ∧ ("Rns" ∉ labels x).
Proof.
  intros Hb Ht.
  apply graph_list_inv in Hb as (nd & s & n & c & _ & _ & _ & _ & _ & Hall).
  apply Hall in Ht as (r & (Hr & _ & Hs & He) & ->).
  exists r. split_and!; [done..|].
  unfold helper_kind, has_label in Hs, He.
  rewrite !orb_false_iff, !bool_decide_eq_false in Hs, He.
  intros x [->| ->]; tauto.
Qed.

Lemma no_helper_endpoints_witness :
  ∃ r, r ∈ Sample.stored
    ∧ RelTuple 50 EmptyMap 105 "ABOUT" 10 (Str "Merger update") = tuple_of r
    ∧ ∀ x, x = startNode r ∨ x = endNode r →
        ("Resource" ∉ labels x) ∧ ("SplitText" ∉ labels x) ∧ ("Rns" ∉ labels x).
Proof.
  apply (no_helper_endpoints Sample.stored Sample.hits Sample.expected
           (RelTuple 50 EmptyMap 105 "ABOUT" 10 (Str "Merger update"))).
  - apply expected_in_sample.
  - apply (bool_decide_unpack _). vm_compute. exact I.
Defined.

(** The stored relationships to the chunk and to a [Resource] node are
    left out. *)
Example helper_relationships_left_out :
  (tuple_of (Relationship 100 "CHILD_OF" Sample.chunk1 Sample.news10)
     ∉ graph_list (metadata Sample.expected))
  ∧ (tuple_of (Relationship 103 "SOURCE" Sample.news10 Sample.resource40)
       ∉ graph_list (metadata Sample.expected)).
Proof.
  split; apply (bool_decide_unpack _); vm_compute; exact I.
Qed.

(** ** The returned row *)

Lemma elem_of_company_names (g : graph) (nd n : node) (v : value) :
  v ∈ company_names g nd n ↔
  ∃ r1 r2,
    r1 ∈ g ∧ r2 ∈ g
    ∧ rel_type r1 = "CHILD_OF" ∧ node_id (startNode r1) = node_id nd
    ∧ node_id (endNode r1) = node_id n ∧ "News" ∈ labels (endNode r1)
    ∧ rel_type r2 = "PUBLISHED_BY"
    ∧ node_id (startNode r2) = node_id (endNode r1)
    ∧ v = prop (endNode r2) "company_name".
Proof.
  unfold company_names, same_node, has_label. rewrite list_elem_of_bind. split.
  - intros (r1 & Hv & Hr1).
    destruct (_ && _) eqn:E1 in Hv; [|by apply elem_of_nil in Hv].
    apply list_elem_of_bind in Hv as (r2 & Hv & Hr2).
    destruct (_ && _) eqn:E2 in Hv; [|by apply elem_of_nil in Hv].
    apply list_elem_of_singleton in Hv as ->.
    match_tests. by exists r1, r2.
  - intros (r1 & r2 & Hr1 & Hr2 & T1 & S1 & N1 & L1 & T2 & S2 & ->).
    exists r1. split; [|done].
    rewrite !bool_decide_eq_true_2 by done. simpl.
    apply list_elem_of_bind. exists r2. split; [|done].
    rewrite !bool_decide_eq_true_2 by done. simpl. by apply list_elem_of_singleton.
Qed.

Lemma elem_of_urls (g : graph) (nd n : node) (v : value) :
  v ∈ urls g nd n ↔
  ∃ r1,
    r1 ∈ g
    ∧ rel_type r1 = "CHILD_OF" ∧ node_id (startNode r1) = node_id nd
    ∧ node_id (endNode r1) = node_id n ∧ "News" ∈ labels (endNode r1)
    ∧ v = prop (endNode r1) "url".
Proof.
  unfold urls, same_node, has_label. rewrite list_elem_of_bind. split.
  - intros (r1 & Hv & Hr1).
    destruct (_ && _) eqn:E1 in Hv; [|by apply elem_of_nil in Hv].
    apply list_elem_of_singleton in Hv as ->.
    match_tests. by exists r1.
  - intros (r1 & Hr1 & T1 & S1 & N1 & L1 & ->).
    exists r1. split; [|done].
    rewrite !bool_decide_eq_true_2 by done. simpl. by apply list_elem_of_singleton.
Qed.



(** ** Chunks without a published parent document *)

Lemma has_parent_chain_true (g : graph) (h : hit) :
  has_parent_chain g h = true ↔ ∃ n c, parent_chain g h.1 n c.
Proof.
  unfold has_parent_chain. split.
  - destruct (match_parent g [h]) as [|w ws] eqn:E; [done|]. intros _.
    assert (w ∈ match_parent g [h]) as Hw by (rewrite E; apply list_elem_of_here).
    apply elem_of_match_parent in Hw as (nd' & s' & n & c & Hin & Hc & _).
    apply list_elem_of_singleton in Hin as <-. by exists n, c.
  - intros (n & c & Hc).
    assert (Row h.2 n c h.1 ∈ match_parent g [h]) as Hw.
    { apply elem_of_match_parent. exists h.1, h.2, n, c.
      split; [destruct h; apply list_elem_of_here|done]. }
    by destruct (match_parent g [h]); [apply elem_of_nil in Hw|].
Qed.

Lemma match_parent_cons (g : graph) (h : hit) (hits : list hit) :
  match_parent g (h :: hits) = (match_parent g [h] ++ match_parent g hits)%list.
Proof. unfold match_parent. simpl. by rewrite app_nil_r. Qed.

Lemma match_parent_filter (g : graph) (hits : list hit) :
  match_parent g (filter (λ h, has_parent_chain g h = true) hits)
  = match_parent g hits.
Proof.
  induction hits as [|h hits IH]; [reflexivity|].
  rewrite filter_cons, (match_parent_cons g h hits).
  destruct (decide (has_parent_chain g h = true)) as [E|E].
  - rewrite (match_parent_cons g h (filter _ hits)), IH. reflexivity.
  - rewrite IH. unfold has_parent_chain in E.
    destruct (match_parent g [h]) as [|w ws]; [reflexivity|].
    exfalso. apply E. reflexivity.
Qed.

(** C10: a returned row stems from an index row whose chunk has a
    [CHILD_OF] parent [News] document that is [PUBLISHED_BY] a [Company];
    index rows whose chunk lacks that chain add nothing to the result,
    whatever their score, so fewer rows can come back than chunks reach
    the threshold. *)
Theorem chunks_without_parent_chain_dropped :
  (∀ (g : graph) (hits : list hit),
     (∀ b, b ∈ RETRIEVAL_QUERY g hits →
        ∃ nd s n c,
          (nd, s) ∈ hits ∧ parent_chain g nd n c
          ∧ score b = s ∧ split_id (metadata b) = prop nd "split_id")
     ∧ RETRIEVAL_QUERY g hits
       = RETRIEVAL_QUERY g (filter (λ h, has_parent_chain g h = true) hits)
     ∧ ((∀ nd s, (nd, s) ∈ hits → ¬ ∃ n c, parent_chain g nd n c) →
        RETRIEVAL_QUERY g hits = []))
  ∧ (∃ (g : graph) (hits : list hit),
       length (RETRIEVAL_QUERY g hits)
       < length (filter (λ h, PrimFloat.leb score_threshold h.2 = true) hits))%nat.
Proof.
  split.
  - intros g hits. split_and!.
    + intros b Hb.
      apply graph_list_inv in Hb as (nd & s & n & c & Hh & Hc & -> & _).
      by exists nd, s, n, c.
    + unfold RETRIEVAL_QUERY. by rewrite match_parent_filter.
    + intros Hnone.
      assert (match_parent g hits = []) as E.
      { destruct (match_parent g hits) as [|w ws] eqn:E; [done|]. exfalso.
        assert (w ∈ match_parent g hits) as Hw by (rewrite E; apply list_elem_of_here).
        apply elem_of_match_parent in Hw as (nd & s & n & c & Hin & Hc & _).
        apply (Hnone nd s Hin). by exists n, c. }
      unfold RETRIEVAL_QUERY. by rewrite E.
  - exists Sample.stored, Sample.hits. vm_compute. lia.
Qed.

Lemma chunks_without_parent_chain_dropped_witness :
  ∃ nd s n c,
    (nd, s) ∈ Sample.hits ∧ parent_chain Sample.stored nd n c
    ∧ score Sample.expected = s
    ∧ split_id (metadata Sample.expected) = prop nd "split_id".
Proof.
  apply (proj1 (proj1 chunks_without_parent_chain_dropped Sample.stored Sample.hits)
           Sample.expected).
  apply expected_in_sample.
Defined.

(** In the sample the second chunk reaches the threshold but its parent
    document has no publisher. *)
Example unpublished_chunk_dropped :
  PrimFloat.leb score_threshold 0.95%float = true
  ∧ has_parent_chain Sample.stored (Sample.chunk2, 0.95%float) = false
  ∧ RETRIEVAL_QUERY Sample.stored [(Sample.chunk2, 0.95%float)] = [].
Proof. split_and!; vm_compute; reflexivity. Qed.

(** ** Requests *)

Lemma bind_Ok {A B : Type} (m : result A) (f : A → result B) (b : B) :
  m ≫= f = Ok b ↔ ∃ a, m = Ok a ∧ f a = Ok b.
Proof.
  unfold mbind, result_bind, bind. destruct m as [a|e]; split.
  - intros H. by exists a.
  - by intros (a' & [= <-] & H).
  - done.
  - by intros (a' & [=] & _).
Qed.

Lemma bind_Raise {A B : Type} (m : result A) (f : A → result B) (e : exn) :
  m ≫= f = Raise e ↔ m = Raise e ∨ ∃ a, m = Ok a ∧ f a = Raise e.
Proof.
  unfold mbind, result_bind, bind. destruct m as [a|e']; split.
  - intros H. right. by exists a.
  - by intros [[=]|(a' & [= <-] & H)].
  - intros [= ->]. by left.
  - by intros [[= ->]|(a' & [=] & _)].
Qed.

Section Response_facts.

Variable kg_qa : chain.

Lemma generate_response_Raise (prompt : string) (e : exn) :
  kg_qa {[ "question" := prompt ]} = Raise e →
  generate_response kg_qa prompt = Raise e.
Proof. unfold generate_response. intros H. apply bind_Raise. by left. Qed.

(** For any chain: [generate_response] returns a text exactly when the
    chain answers the mapping [{"question": prompt}] with a mapping that
    holds that text under ["answer"]; the text is handed back unchanged. *)
Theorem generate_response_returns_chain_answer (prompt answer : string) :
  generate_response kg_qa prompt = Ok answer ↔
  ∃ response,
    kg_qa {[ "question" := prompt ]} = Ok response
    ∧ response !! "answer" = Some answer.
Proof.
  unfold generate_response. rewrite bind_Ok. split.
  - intros (response & Hc & Ha). exists response. split; [done|].
    destruct (response !! "answer"); by simplify_eq.
  - intros (response & Hc & Ha). exists response. by rewrite Ha.
Qed.

End Response_facts.

Section Requests.

Context {embedding : Type}.
Variable embed_query : string → result embedding.
Variable queryNodes : string → nat → embedding → result (list hit).
Variable session : result graph.
Variable llm : list bundle → string → result string.
Variables input_key output_key : string.

Local Abbreviation the_retriever := (retriever embed_query queryNodes session).
Local Abbreviation the_chain :=
  (kg_qa embed_query queryNodes session llm input_key output_key).
Local Abbreviation stage_raises :=
  (raised_at embed_query queryNodes session llm).

Lemma retriever_Ok (query : string) (docs : list bundle) :
  the_retriever query = Ok docs ↔
  ∃ v hits g,
    embed_query query = Ok v
    ∧ queryNodes index_name k v = Ok hits
    ∧ session = Ok g
    ∧ docs = filter (λ b, PrimFloat.leb score_threshold (score b) = true)
               (RETRIEVAL_QUERY g hits).
Proof.
  unfold retriever, neo4jvector. rewrite bind_Ok. split.
  - intros (all & Hs & [= <-]).
    apply bind_Ok in Hs as (v & Hv & Hs).
    apply bind_Ok in Hs as (hits & Hh & Hs).
    apply bind_Ok in Hs as (g & Hg & [= <-]).
    by exists v, hits, g.
  - intros (v & hits & g & Hv & Hh & Hg & ->).
    exists (RETRIEVAL_QUERY g hits). split; [|done].
    apply bind_Ok. exists v. split; [done|].
    apply bind_Ok. exists hits. split; [done|].
    apply bind_Ok. by exists g.
Qed.

Lemma kg_qa_Ok (inputs : gmap string string) (question : string)
    (docs : list bundle) (answer : string) :
  inputs !! input_key = Some question →
  the_retriever question = Ok docs →
  llm docs question = Ok answer →
  the_chain inputs = Ok (<[ output_key := answer ]> inputs).
Proof.
  intros Hk Hr Hl. unfold kg_qa. rewrite Hk.
  apply bind_Ok. exists docs. split; [done|].
  apply bind_Ok. by exists answer.
Qed.


(** The whole request, when the chain reads ["question"] and writes
    ["answer"]. *)
Lemma generate_response_end_to_end (prompt : string) (docs : list bundle)
    (answer : string) :
  input_key = "question" → output_key = "answer" →
  the_retriever prompt = Ok docs →
  llm docs prompt = Ok answer →
  generate_response the_chain prompt = Ok answer.
Proof.
  intros Hik Hok Hr Hl. unfold generate_response.
  rewrite (kg_qa_Ok _ prompt docs answer);
    [|rewrite Hik; apply lookup_singleton_eq|done..].
  unfold mbind, result_bind, bind.
  rewrite Hok, lookup_insert_eq. reflexivity.
Qed.

(** A chain that reads its input under another name rejects the mapping
    [generate_response] builds. *)
Lemma generate_response_other_input_key (prompt : string) :
  input_key ≠ "question" →
  generate_response the_chain prompt
  = Raise (Exn "ValueError" "Missing some input keys").
Proof.
  intros Hne. apply generate_response_Raise. unfold kg_qa.
  rewrite lookup_singleton_ne; done.
Qed.

(** A chain that stores its output under another name makes the
    subscript [response["answer"]] raise. *)
Lemma generate_response_other_output_key (prompt : string) (docs : list bundle)
    (answer : string) :
  input_key = "question" → output_key ≠ "answer" →
  the_retriever prompt = Ok docs →
  llm docs prompt = Ok answer →
  generate_response the_chain prompt = Raise (Exn "KeyError" "answer").
Proof.
  intros Hik Hne Hr Hl. unfold generate_response.
  rewrite (kg_qa_Ok _ prompt docs answer);
    [|rewrite Hik; apply lookup_singleton_eq|done..].
  unfold mbind, result_bind, bind.
  rewrite lookup_insert_ne, lookup_singleton_ne by done. reflexivity.
Qed.

(** C2: the retriever hands over at most 3 rows, each with a score of
    at least 0.87, and the score of a row is the score the index gave
    to a chunk. *)
Theorem retriever_at_most_three_above_threshold (query : string)
    (docs : list bundle) :
  the_retriever query = Ok docs →
  (length docs ≤ 3)%nat
  ∧ Forall (λ b, PrimFloat.leb 0.87 (score b) = true) docs
  ∧ ∃ v hits,
      embed_query query = Ok v
      ∧ queryNodes index_name 3 v = Ok hits
      ∧ ∀ b, b ∈ docs → ∃ nd, (nd, score b) ∈ hits.
Proof.
  intros Hr. apply retriever_Ok in Hr as (v & hits & g & Hv & Hh & Hg & ->).
  split_and!.
  - etrans; [apply length_filter|]. unfold RETRIEVAL_QUERY.
    rewrite length_take. unfold LIMIT. lia.
  - apply Forall_forall. intros b Hb. by apply list_elem_of_filter in Hb as [Hs _].
  - exists v, hits. split_and!; [done..|]. intros b Hb.
    apply list_elem_of_filter in Hb as [_ Hb].
    apply graph_list_inv in Hb as (nd & s & n & c & Hin & _ & -> & _).
    by exists nd.
Qed.


(** For a chain that reads ["question"] and writes ["answer"]: when
    every chunk the index yields scores below the threshold, the retriever
    hands over no row, and the request returns the answer the model gives
    for no documents. *)
Theorem empty_retrieval_still_answers (prompt : string) (v : embedding)
    (hits : list hit) (g : graph) (answer : string) :
  input_key = "question" → output_key = "answer" →
  embed_query prompt = Ok v →
  queryNodes index_name k v = Ok hits →
  session = Ok g →
  Forall (λ h, PrimFloat.leb score_threshold h.2 = false) hits →
  llm [] prompt = Ok answer →
  the_retriever prompt = Ok []
  ∧ generate_response the_chain prompt = Ok answer.
Proof.
  intros Hik Hok Hv Hh Hg Hlow Hl.
  assert (the_retriever prompt = Ok []) as Hr.
  { apply retriever_Ok. exists v, hits, g. split_and!; [done..|].
    symmetry. apply filter_none. intros b Hb Hs.
    apply graph_list_inv in Hb as (nd & s & n & c & Hin & _ & Hb & _).
    rewrite Forall_forall in Hlow. specialize (Hlow _ Hin).
    rewrite Hb in Hs. cbn [bundle_of score row_score] in Hs. cbn [snd] in Hlow.
    rewrite Hlow in Hs. discriminate. }
  split; [done|]. by apply (generate_response_end_to_end prompt []).
Qed.

End Requests.

Lemma retriever_at_most_three_above_threshold_witness :
  (length [Sample.expected] ≤ 3)%nat
  ∧ Forall (λ b, PrimFloat.leb 0.87 (score b) = true) [Sample.expected]
  ∧ ∃ v hits,
      SampleRun.embed_query "Who is merging?" = Ok v
      ∧ SampleRun.queryNodes index_name 3 v = Ok hits
      ∧ ∀ b, b ∈ [Sample.expected] → ∃ nd, (nd, score b) ∈ hits.
Proof.
  apply (retriever_at_most_three_above_threshold
           SampleRun.embed_query SampleRun.queryNodes SampleRun.session
           "Who is merging?" [Sample.expected]).
  vm_compute. reflexivity.
Defined.

(** The query itself returns a row for a chunk below the threshold; it is
    the retriever that leaves the row out. *)
Example low_score_row_left_out_by_retriever :
  length (RETRIEVAL_QUERY Sample.stored Sample.low_hits) = 1%nat
  ∧ retriever SampleRun.embed_query SampleRun.queryNodes_low SampleRun.session
      "Who is merging?" = Ok [].
Proof. split; vm_compute; reflexivity. Qed.


Lemma empty_retrieval_still_answers_witness :
  retriever SampleRun.embed_query SampleRun.queryNodes_low SampleRun.session
    "Who is merging?" = Ok []
  ∧ generate_response
      (kg_qa SampleRun.embed_query SampleRun.queryNodes_low SampleRun.session
         SampleRun.llm "question" "answer")
      "Who is merging?"
    = Ok "I do not know.".
Proof.
  apply (empty_retrieval_still_answers
           SampleRun.embed_query SampleRun.queryNodes_low SampleRun.session
           SampleRun.llm "question" "answer"
           "Who is merging?" 15%nat Sample.low_hits Sample.stored "I do not know.").
  - reflexivity.
  - reflexivity.
  - vm_compute. reflexivity.
  - vm_compute. reflexivity.
  - reflexivity.
  - unfold Sample.low_hits. repeat constructor.
  - vm_compute. reflexivity.
Defined.

(** The sample request end to end. *)
Example generate_response_sample :
  generate_response
    (kg_qa SampleRun.embed_query SampleRun.queryNodes SampleRun.session
       SampleRun.llm "question" "answer")
    "Who is merging?"
  = Ok "Acme plc is merging.".
Proof. vm_compute. reflexivity. Qed.

(** ** Further facts about [RETRIEVAL_QUERY] *)

Lemma earlier_distinct_filter {A : Type} (eqv : A → A → bool) (P : A → Prop)
    `{∀ x, Decision (P x)} (l : list A) :
  earlier_distinct eqv l → earlier_distinct eqv (filter P l).
Proof.
  induction l as [|x l IH]; [done|]. intros [Hx Hl].
  rewrite filter_cons. destruct (decide (P x)); [|by apply IH].
  split; [|by apply IH].
  rewrite Forall_forall in Hx |- *. intros y Hy.
  apply list_elem_of_filter in Hy as [_ Hy]. by apply Hx.
Qed.

Lemma earlier_distinct_distinct_by {A : Type} (eqv : A → A → bool) (l : list A) :
  earlier_distinct eqv (distinct_by eqv l).
Proof.
  induction l as [|x l IH]; [done|]. simpl. split.
  - apply Forall_forall. intros y Hy. apply list_elem_of_filter in Hy as [Hy _].
    by destruct (eqv x y).
  - by apply earlier_distinct_filter.
Qed.

Lemma earlier_distinct_take {A : Type} (eqv : A → A → bool) (n : nat) (l : list A) :
  earlier_distinct eqv l → earlier_distinct eqv (take n l).
Proof.
  revert n. induction l as [|x l IH]; intros [|n]; try done.
  intros [Hx Hl]. simpl. split; [|by apply IH].
  apply Forall_forall. intros y Hy. rewrite Forall_forall in Hx.
  by apply Hx, (subseteq_take n l).
Qed.

Lemma earlier_distinct_lookup {A : Type} (eqv : A → A → bool) (l : list A)
    (i j : nat) (x y : A) :
  earlier_distinct eqv l → (i < j)%nat →
  l !! i = Some x → l !! j = Some y → eqv x y = false.
Proof.
  revert i j. induction l as [|z l IH]; intros i j Hl Hij Hi Hj.
  - by rewrite lookup_nil in Hi.
  - destruct Hl as [Hz Hl]. destruct j as [|j]; [lia|]. simpl in Hj.
    destruct i as [|i]; simpl in Hi.
    + injection Hi as ->. rewrite Forall_forall in Hz.
      apply Hz. by apply list_elem_of_lookup_2 in Hj.
    + apply (IH i j); [done|lia|done..].
Qed.

(** X2: [RETURN DISTINCT]: no returned row is equivalent to a row
    returned before it. *)
Theorem returned_rows_distinct (g : graph) (hits : list hit) (i j : nat)
    (bi bj : bundle) :
  (i < j)%nat →
  RETRIEVAL_QUERY g hits !! i = Some bi →
  RETRIEVAL_QUERY g hits !! j = Some bj →
  bundle_equiv bi bj = false.
Proof.
  intros Hij Hi Hj.
  apply (earlier_distinct_lookup bundle_equiv (RETRIEVAL_QUERY g hits) i j);
    [|done..].
  unfold RETRIEVAL_QUERY. apply earlier_distinct_take, earlier_distinct_distinct_by.
Qed.

(** X3: a returned row never has an empty relationship list, an empty
    [company] list or an empty [url] list. *)
Theorem returned_row_lists_nonempty (g : graph) (hits : list hit) (b : bundle) :
  b ∈ RETRIEVAL_QUERY g hits →
  graph_list (metadata b) ≠ []
  ∧ company (metadata b) ≠ []
  ∧ url (metadata b) ≠ [].
Proof.
  intros Hb.
  apply graph_list_inv in Hb as (nd & s & n & c & _ & Hc & Hb & _ & [r Hr] & Hall).
  destruct Hc as (r1 & r2 & Hr1 & Hr2 & T1 & S1 & <- & L1 & T2 & S2 & <- & L2).
  split_and!.
  - intros E. assert (tuple_of r ∈ graph_list (metadata b)) as Hin.
    { apply Hall. by exists r. }
    rewrite E in Hin. by apply elem_of_nil in Hin.
  - rewrite Hb. simpl. intros E.
    assert (prop (endNode r2) "company_name"
            ∈ company_names g nd (endNode r1)) as Hin.
    { apply elem_of_company_names. by exists r1, r2. }
    rewrite E in Hin. by apply elem_of_nil in Hin.
  - rewrite Hb. simpl. intros E.
    assert (prop (endNode r1) "url" ∈ urls g nd (endNode r1)) as Hin.
    { apply elem_of_urls. by exists r1. }
    rewrite E in Hin. by apply elem_of_nil in Hin.
Qed.

Lemma hop_admissible (g : graph) (n : node) (r : relationship) :
  hop g n r ↔ r ∈ g ∧ admissible n r = true.
Proof.
  unfold hop, admissible, same_node.
  rewrite !andb_true_iff, orb_true_iff, !negb_true_iff, !bool_decide_eq_true.
  tauto.
Qed.

Lemma elem_of_graph_nodes (g : graph) (r : relationship) :
  r ∈ g → startNode r ∈ graph_nodes g ∧ endNode r ∈ graph_nodes g.
Proof.
  intros Hr. unfold graph_nodes.
  split; apply list_elem_of_bind; exists r; (split; [|done]).
  - apply list_elem_of_here.
  - apply list_elem_of_further, list_elem_of_here.
Qed.

Lemma ids_name_nodes_eq (g : graph) (x y : node) :
  ids_name_nodes g →
  x ∈ graph_nodes g → y ∈ graph_nodes g → node_id x = node_id y → x = y.
Proof.
  unfold ids_name_nodes. rewrite Forall_forall. intros Hwf Hx Hy.
  specialize (Hwf x Hx). rewrite Forall_forall in Hwf. by apply Hwf.
Qed.

(** X4: in a graph where an id names one node, the parent document of a
    returned row carries none of the labels [Resource], [SplitText],
    [Rns]: a chunk whose parent document carries one yields no row. *)
Theorem returned_row_parent_not_helper (g : graph) (hits : list hit) (b : bundle) :
  ids_name_nodes g →
  b ∈ RETRIEVAL_QUERY g hits →
  ∃ nd s n c,
    (nd, s) ∈ hits ∧ parent_chain g nd n c
    ∧ text b = prop n "body"
    ∧ ("Resource" ∉ labels n) ∧ ("SplitText" ∉ labels n) ∧ ("Rns" ∉ labels n).
Proof.
  intros Hwf Hb.
  apply graph_list_inv in Hb as (nd & s & n & c & Hh & Hc & Hb & _ & [r Hr] & _).
  exists nd, s, n, c. split_and!; [done..|by rewrite Hb| | |];
    destruct Hc as (r1 & r2 & Hr1 & _ & _ & _ & <- & _);
    destruct Hr as (Hr & Hid & Hs & He);
    apply elem_of_graph_nodes in Hr as [Hsn Hen];
    apply elem_of_graph_nodes in Hr1 as [_ Hn];
    unfold helper_kind, has_label in Hs, He;
    rewrite !orb_false_iff, !bool_decide_eq_false in Hs, He;
    (destruct Hid as [Hid|Hid];
     [apply (ids_name_nodes_eq g _ _ Hwf Hsn Hn) in Hid as <-
     |apply (ids_name_nodes_eq g _ _ Hwf Hen Hn) in Hid as <-]); tauto.
Qed.

Lemma NoDup_fmap_inj_on {A B : Type} (f : A → B) (l : list A) (x y : A) :
  NoDup (f <$> l) → x ∈ l → y ∈ l → f x = f y → x = y.
Proof.
  induction l as [|z l IH]; intros Hnd Hx Hy Hf; [by apply elem_of_nil in Hx|].
  rewrite fmap_cons in Hnd. apply NoDup_cons in Hnd as [Hz Hnd].
  apply elem_of_cons in Hx as [->|Hx]; apply elem_of_cons in Hy as [->|Hy].
  - done.
  - exfalso. apply Hz. rewrite Hf. apply list_elem_of_fmap. by exists y.
  - exfalso. apply Hz. rewrite <- Hf. apply list_elem_of_fmap. by exists x.
  - by apply IH.
Qed.

(** X5: when relationship ids are unique, the relationship list of a
    returned row holds exactly one tuple for each stored relationship
    that touches the parent document and has no end node of a helper kind,
    whichever way the relationship points. *)
Theorem relslist_one_tuple_per_relationship (g : graph) (hits : list hit)
    (b : bundle) :
  NoDup (rel_id <$> g) →
  b ∈ RETRIEVAL_QUERY g hits →
  ∃ nd s n c,
    (nd, s) ∈ hits ∧ parent_chain g nd n c
    ∧ text b = prop n "body"
    ∧ graph_list (metadata b)
      ≡ₚ tuple_of <$> filter (λ r, admissible n r = true) g.
Proof.
  intros Hids Hb.
  apply graph_list_inv in Hb as (nd & s & n & c & Hh & Hc & Hb & Hnd & _ & Hall).
  exists nd, s, n, c. split_and!; [done..|by rewrite Hb|].
  apply NoDup_Permutation; [done| |].
  - apply NoDup_fmap_2_strong.
    + intros x y Hx Hy Ht.
      apply list_elem_of_filter in Hx as [_ Hx].
      apply list_elem_of_filter in Hy as [_ Hy].
      apply (NoDup_fmap_inj_on rel_id g); [done..|].
      by apply (f_equal relationship_id) in Ht.
    + apply NoDup_filter. by apply NoDup_fmap_1 in Hids.
  - intros t. rewrite Hall, list_elem_of_fmap. split.
    + intros (r & Hr & ->). exists r. split; [done|].
      apply hop_admissible in Hr as [Hr Ha]. by apply list_elem_of_filter.
    + intros (r & -> & Hr). exists r. split; [|done].
      apply list_elem_of_filter in Hr as [Ha Hr]. by apply hop_admissible.
Qed.

(** X6: the [company] list of a returned row holds the [company_name]
    of the end node of every [PUBLISHED_BY] relationship of the parent
    document, whatever labels that node carries. *)
Theorem company_lists_every_publisher (g : graph) (hits : list hit) (b : bundle) :
  b ∈ RETRIEVAL_QUERY g hits →
  ∃ nd s n c,
    (nd, s) ∈ hits ∧ parent_chain g nd n c
    ∧ text b = prop n "body"
    ∧ ∀ r2, r2 ∈ g → rel_type r2 = "PUBLISHED_BY" →
        node_id (startNode r2) = node_id n →
        prop (endNode r2) "company_name" ∈ company (metadata b).
Proof.
  intros Hb.
  apply graph_list_inv in Hb as (nd & s & n & c & Hh & Hc & Hb & _).
  exists nd, s, n, c. split_and!; [done..|by rewrite Hb|].
  intros r2 Hr2 T2 S2. rewrite Hb. simpl.
  destruct Hc as (r1 & _ & Hr1 & _ & T1 & S1 & <- & L1 & _).
  apply elem_of_company_names. by exists r1, r2.
Qed.

(** X7: in a graph where an id names one node, an index row whose chunk
    has a parent document and a publisher, neither of a helper kind, makes
    the query return at least one row. *)
Theorem published_chunk_yields_row (g : graph) (hits : list hit)
    (nd n c : node) (s : float) :
  ids_name_nodes g →
  (nd, s) ∈ hits →
  parent_chain g nd n c →
  helper_kind n = false → helper_kind c = false →
  RETRIEVAL_QUERY g hits ≠ [].
Proof.
  intros Hwf Hh Hc Hn Hcc.
  assert (Row s n c nd ∈ match_parent g hits) as Hw.
  { apply elem_of_match_parent. by exists nd, s, n, c. }
  destruct Hc as (r1 & r2 & Hr1 & Hr2 & T1 & S1 & <- & L1 & T2 & S2 & <- & L2).
  assert (startNode r2 = endNode r1) as Hsame.
  { apply (ids_name_nodes_eq g); [done| | |done].
    - by apply elem_of_graph_nodes in Hr2 as [? _].
    - by apply elem_of_graph_nodes in Hr1 as [_ ?]. }
  assert ((Row s (endNode r1) (endNode r2) nd, r2)
          ∈ unwind_rels g (match_parent g hits)) as Hu.
  { apply elem_of_unwind_rels. split; [done|]. simpl.
    unfold hop. rewrite Hsame. split_and!; [done|by left|done..]. }
  unfold RETRIEVAL_QUERY, collect_rels.
  destruct (unwind_rels g (match_parent g hits)) as [|wr rows];
    [by apply elem_of_nil in Hu|].
  done.
Qed.

(** ** The further facts on the sample graph *)

Lemma sample_ids_name_nodes : ids_name_nodes Sample.stored.
Proof. apply (bool_decide_unpack _). vm_compute. exact I. Qed.

Lemma sample_rel_ids_unique : NoDup (rel_id <$> Sample.stored).
Proof. apply (bool_decide_unpack _). vm_compute. exact I. Qed.

Lemma sample_parent_chain :
  parent_chain Sample.stored Sample.chunk1 Sample.news10 Sample.company20.
Proof.
  exists (Relationship 100 "CHILD_OF" Sample.chunk1 Sample.news10),
         (Relationship 101 "PUBLISHED_BY" Sample.news10 Sample.company20).
  split_and!; try reflexivity.
  - apply list_elem_of_here.
  - apply list_elem_of_further, list_elem_of_here.
  - apply list_elem_of_here.
  - apply list_elem_of_here.
Qed.

Lemma returned_rows_distinct_witness :
  ∃ bi bj,
    RETRIEVAL_QUERY Sample2.stored Sample2.hits !! 0%nat = Some bi
    ∧ RETRIEVAL_QUERY Sample2.stored Sample2.hits !! 1%nat = Some bj
    ∧ bundle_equiv bi bj = false.
Proof.
  eexists. eexists. split; [vm_compute; reflexivity|].
  split; [vm_compute; reflexivity|].
  apply (returned_rows_distinct Sample2.stored Sample2.hits 0 1).
  - lia.
  - vm_compute. reflexivity.
  - vm_compute. reflexivity.
Defined.

Lemma returned_row_lists_nonempty_witness :
  graph_list (metadata Sample.expected) ≠ []
  ∧ company (metadata Sample.expected) ≠ []
  ∧ url (metadata Sample.expected) ≠ [].
Proof.
  apply (returned_row_lists_nonempty Sample.stored Sample.hits Sample.expected).
  apply expected_in_sample.
Defined.

Lemma returned_row_parent_not_helper_witness :
  ∃ nd s n c,
    (nd, s) ∈ Sample.hits ∧ parent_chain Sample.stored nd n c
    ∧ text Sample.expected = prop n "body"
    ∧ ("Resource" ∉ labels n) ∧ ("SplitText" ∉ labels n) ∧ ("Rns" ∉ labels n).
Proof.
  apply (returned_row_parent_not_helper Sample.stored Sample.hits Sample.expected).
  - apply sample_ids_name_nodes.
  - apply expected_in_sample.
Defined.

Lemma relslist_one_tuple_per_relationship_witness :
  ∃ nd s n c,
    (nd, s) ∈ Sample.hits ∧ parent_chain Sample.stored nd n c
    ∧ text Sample.expected = prop n "body"
    ∧ graph_list (metadata Sample.expected)
      ≡ₚ tuple_of <$> filter (λ r, admissible n r = true) Sample.stored.
Proof.
  apply (relslist_one_tuple_per_relationship Sample.stored Sample.hits Sample.expected).
  - apply sample_rel_ids_unique.
  - apply expected_in_sample.
Defined.

Lemma company_lists_every_publisher_witness :
  ∃ nd s n c,
    (nd, s) ∈ Sample.hits ∧ parent_chain Sample.stored nd n c
    ∧ text Sample.expected = prop n "body"
    ∧ ∀ r2, r2 ∈ Sample.stored → rel_type r2 = "PUBLISHED_BY" →
        node_id (startNode r2) = node_id n →
        prop (endNode r2) "company_name" ∈ company (metadata Sample.expected).
Proof.
  apply (company_lists_every_publisher Sample.stored Sample.hits Sample.expected).
  apply expected_in_sample.
Defined.

Lemma published_chunk_yields_row_witness :
  RETRIEVAL_QUERY Sample.stored Sample.hits ≠ [].
Proof.
  apply (published_chunk_yields_row Sample.stored Sample.hits
           Sample.chunk1 Sample.news10 Sample.company20 0.91%float).
  - apply sample_ids_name_nodes.
  - unfold Sample.hits. apply list_elem_of_further, list_elem_of_here.
  - apply sample_parent_chain.
  - vm_compute. reflexivity.
  - vm_compute. reflexivity.
Defined.

(** ** Requests to the chain the module builds *)

(** C1: with the chain the module builds, a [RetrievalQA], the mapping
    [{"question": prompt}] lacks the chain's input key, so
    [generate_response] raises [ValueError] for every prompt and with any
    embedding function, index, database and model; no answer text is
    returned. *)
Theorem generate_response_raises_for_every_prompt {embedding : Type}
    (embed_query : string → result embedding)
    (queryNodes : string → nat → embedding → result (list hit))
    (session : result graph)
    (llm : list bundle → string → result string)
    (prompt : string) :
  generate_response
    (kg_qa embed_query queryNodes session llm
       RetrievalQA_input_key RetrievalQA_output_key)
    prompt
  = Raise (Exn "ValueError" "Missing some input keys").
Proof.
  apply generate_response_other_input_key.
  unfold RetrievalQA_input_key. discriminate.
Qed.

(** C9: a request for which every chunk of the index scores below the
    threshold: the retriever hands over no row and the model would answer
    for no documents, yet with the chain the module builds
    [generate_response] raises [ValueError] instead of completing. *)
Theorem empty_retrieval_request_raises :
  Forall (λ h, PrimFloat.leb score_threshold h.2 = false) Sample.low_hits
  ∧ retriever SampleRun.embed_query SampleRun.queryNodes_low SampleRun.session
      "Who is merging?" = Ok []
  ∧ SampleRun.llm [] "Who is merging?" = Ok "I do not know."
  ∧ generate_response
      (kg_qa SampleRun.embed_query SampleRun.queryNodes_low SampleRun.session
         SampleRun.llm RetrievalQA_input_key RetrievalQA_output_key)
      "Who is merging?"
    = Raise (Exn "ValueError" "Missing some input keys").
Proof.
  split_and!.
  - unfold Sample.low_hits. repeat constructor.
  - vm_compute. reflexivity.
  - vm_compute. reflexivity.
  - vm_compute. reflexivity.
Qed.

(** Were the question passed under the chain's input key, the subscript
    [response["answer"]] would still raise: the answer is stored under
    ["result"]. *)
Example answer_stored_under_result :
  kg_qa SampleRun.embed_query SampleRun.queryNodes SampleRun.session
    SampleRun.llm RetrievalQA_input_key RetrievalQA_output_key
    {[ "query" := "Who is merging?" ]}
  = Ok (<[ "result" := "Acme plc is merging." ]> {[ "query" := "Who is merging?" ]})
  ∧ (<[ "result" := "Acme plc is merging." ]>
       ({[ "query" := "Who is merging?" ]} : gmap string string)) !! "answer"
    = None.
Proof. split; vm_compute; reflexivity. Qed.
